(** * The image-submission handler of the medical imaging agent

    A shallow embedding of [analyze_medical_image] (ai_medical_imaging.py).
    The handler is effectful glue: it writes a transient file, calls a
    hosted model once, deletes the file and checks the length of the
    answer.  The embedding threads an explicit world (file system and
    event log) through an exception monad; the third-party libraries it
    calls (PIL, the agent) are a record of functions, [Env].

    The file system is a finite map from paths to entries, files or
    directories: [os.remove] and [open] succeed on a file and raise on a
    directory and on a missing path; permissions and links are left out.
    Whether [img.save] succeeds is the answer of the environment; a write
    that succeeds leaves the PNG file at the path.  The external agent
    reads the disk and does not change it.  One invocation runs at a
    time. *)

From Stdlib Require Import String Ascii NArith List Lia.
From stdpp Require Import base option list gmap.

Local Open Scope N_scope.

(** ** Python strings *)

(** A Python [str] is a sequence of Unicode code points; [len] counts code
    points. *)
Abbreviation str := (list N).

Definition lit (s : string) : str := N_of_ascii <$> list_ascii_of_string s.

Definition len (s : str) : nat := length s.

(** [str.isspace] for one code point: the white-space table of CPython. *)
Definition isspace (c : N) : bool :=
  ((9 <=? c) && (c <=? 13)) || ((28 <=? c) && (c <=? 32))
  || (c =? 133) || (c =? 160) || (c =? 5760)
  || ((8192 <=? c) && (c <=? 8202))
  || (c =? 8232) || (c =? 8233) || (c =? 8239) || (c =? 8287) || (c =? 12288).

Fixpoint lstrip (s : str) : str :=
  match s with
  | c :: s' => if isspace c then lstrip s' else s
  | [] => []
  end.

Definition rstrip (s : str) : str := rev (lstrip (rev s)).

(** [s.strip()] *)
Definition strip (s : str) : str := rstrip (lstrip s).


(** ** Values the handler works on *)

(** A Python exception object (a subclass of [Exception]); [str(e)] is its
    message. *)
Record Exception := Raise { exn_class : string; exn_msg : str }.

Definition str_of (e : Exception) : str := exn_msg e.

(** PIL image modes and the number of bands of each. *)
Inductive mode :=
  | Mode1 | ModeL | ModeP | ModeRGB | ModeRGBA | ModeCMYK | ModeYCbCr
  | ModeLAB | ModeHSV | ModeI | ModeF | ModeLA | ModePA | ModeRGBX
  | ModeRGBa | ModeLa | ModeI16.

Definition bands (m : mode) : nat :=
  match m with
  | Mode1 | ModeL | ModeP | ModeI | ModeF | ModeI16 => 1
  | ModeLA | ModePA | ModeLa => 2
  | ModeRGB | ModeYCbCr | ModeLAB | ModeHSV => 3
  | ModeRGBA | ModeCMYK | ModeRGBX | ModeRGBa => 4
  end%nat.

(** [PIL.Image.Image]: mode, size (width, height) and the band values. *)
Record PILImage := { im_mode : mode; im_size : N * N; im_data : list N }.

(** [numpy.ndarray] *)
Record ndarray := { shape : list N; dtype : string; values : list Z }.

(** What the handler can be given as [image]. *)
Inductive UploadedImage :=
  | PyNone
  | NdArray (a : ndarray)
  | PilImage (p : PILImage)
  | PyObject (type_name : string).

(** [isinstance(image, np.ndarray)] or [isinstance(image, Image.Image)] *)
Definition accepted (image : UploadedImage) : bool :=
  match image with
  | NdArray _ | PilImage _ => true
  | PyNone | PyObject _ => false
  end.

(** The response object of the agent; [content] is optional. *)
Record RunResponse := { content : option str }.

(** ** The world: file system and observable events *)

Inductive file :=
  | PngFile (img : PILImage)
  | RawFile (bytes : list N)
  | Directory.

Inductive Event :=
  | GrWarning (msg : str)
  | GrInfo (msg : str)
  | GrSuccess (msg : str)
  | AgentRun (prompt : str) (images : list str) (disk : gmap str file).

Record World := { fs : gmap str file; log : list Event }.

(** What a failed [save] leaves at the path. *)
Inductive leftover :=
  | Untouched
  | Partial (f : file)
  | Removed.

Inductive SaveOutcome :=
  | Saved
  | SaveFailed (e : Exception) (l : leftover).

(** The libraries the handler calls.  Each call either raises or gives its
    result. *)
Record Env := {
  fromarray : ndarray → Exception + PILImage;
  convert_data : mode → PILImage → Exception + list N;
  save_outcome : PILImage → str → SaveOutcome;
  agent_run : str → list str → gmap str file → Exception + RunResponse
}.

(** ** Exceptions and state *)

Definition M (A : Type) : Type := World → (Exception + A) * World.

#[global] Instance M_ret : MRet M := λ A x w, (inr x, w).

#[global] Instance M_bind : MBind M := λ A B f m w,
  match m w with
  | (inr x, w') => f x w'
  | (inl e, w') => (inl e, w')
  end.

Definition throw {A} (e : Exception) : M A := λ w, (inl e, w).

(** [try: body  except Exception as e: handler e] *)
Definition try_except {A} (body : M A) (handler : Exception → M A) : M A :=
  λ w, match body w with
       | (inr x, w') => (inr x, w')
       | (inl e, w') => handler e w'
       end.

Definition lift {A} (r : Exception + A) : M A :=
  match r with
  | inl e => throw e
  | inr x => mret x
  end.

Definition emit (ev : Event) : M unit :=
  λ w, (inr tt, {| fs := fs w; log := log w ++ [ev] |}).

Definition set_fs (f : gmap str file → gmap str file) : M unit :=
  λ w, (inr tt, {| fs := f (fs w); log := log w |}).

Definition get_fs : M (gmap str file) := λ w, (inr (fs w), w).

(** ** File system and library calls *)

(** [os.path.exists(path)] *)
Definition os_path_exists (path : str) : M bool :=
  disk ← get_fs; mret (bool_decide (is_Some (disk !! path))).

Definition FileNotFoundError (path : str) : Exception :=
  Raise "FileNotFoundError"
        (lit "[Errno 2] No such file or directory: '" ++ path ++ lit "'").

Definition IsADirectoryError (path : str) : Exception :=
  Raise "IsADirectoryError"
        (lit "[Errno 21] Is a directory: '" ++ path ++ lit "'").

(** [os.remove(path)]: deletes a file; raises on a directory and on a
    missing path, and then leaves the disk as it is. *)
Definition os_remove (path : str) : M unit :=
  disk ← get_fs;
  match disk !! path with
  | None => throw (FileNotFoundError path)
  | Some Directory => throw (IsADirectoryError path)
  | Some _ => set_fs (delete path)
  end.

(** [with open(path, 'rb') as f: body]: the file is opened for reading,
    the body runs, the handle is closed whatever the body does; a
    directory or a missing path makes [open] raise. *)
Definition with_open_rb {A} (path : str) (body : M A) : M A :=
  disk ← get_fs;
  match disk !! path with
  | None => throw (FileNotFoundError path)
  | Some Directory => throw (IsADirectoryError path)
  | Some _ => body
  end.

(** [Image.fromarray(a)] *)
Definition Image_fromarray (env : Env) (a : ndarray) : M PILImage :=
  lift (fromarray env a).

(** [img.convert(m)]: a new image of mode [m] and the same size. *)
Definition Image_convert (env : Env) (img : PILImage) (m : mode) : M PILImage :=
  data ← lift (convert_data env m img);
  mret {| im_mode := m; im_size := im_size img; im_data := data |}.

(** [img.save(path)]: creates the file or replaces the one that is there. *)
Definition Image_save (env : Env) (img : PILImage) (path : str) : M unit :=
  match save_outcome env img path with
  | Saved => set_fs (insert path (PngFile img))
  | SaveFailed e Untouched => throw e
  | SaveFailed e (Partial f) => set_fs (insert path f);; throw e
  | SaveFailed e Removed => set_fs (delete path);; throw e
  end.

(** [medical_agent.run(prompt, images=images)]: one blocking call; the
    agent reads the files named by [images] from the disk. *)
Definition medical_agent_run (env : Env) (prompt : str) (images : list str)
  : M RunResponse :=
  disk ← get_fs;
  emit (AgentRun prompt images disk);;
  lift (agent_run env prompt images disk).

(** What [response.content.strip()] raises when [content] is [None]. *)
Definition NoneType_strip : Exception :=
  Raise "AttributeError" (lit "'NoneType' object has no attribute 'strip'").

(** [gr.Warning], [gr.Info] and [gr.Success] show a notification.
    [gr.Error(...)] only builds an exception object: the handler never
    raises it, so it shows nothing. *)
Definition gr_Warning (msg : str) : M unit := emit (GrWarning msg).
Definition gr_Info (msg : str) : M unit := emit (GrInfo msg).
Definition gr_Success (msg : str) : M unit := emit (GrSuccess msg).
Definition gr_Error (msg : str) : M unit := mret tt.

(** ** Constants of the script *)

Definition newline : str := [10].

Fixpoint join_lines (ls : list string) : str :=
  match ls with
  | [] => []
  | [l] => lit l
  | l :: ls' => lit l ++ newline ++ join_lines ls'
  end.

Definition ANALYSIS_QUERY : str := join_lines [
  "Analyze this medical image as a highly skilled medical imaging expert with extensive knowledge in radiology and diagnostic imaging. Follow this structure:";
  "";
  "1. Image Type & Region Analysis:";
  "* Identify the imaging modality used (X-ray/MRI/CT/Ultrasound/etc.)";
  "* Describe the anatomical region shown and patient positioning";
  "* Assess image quality and technical adequacy";
  "";
  "2. Key Findings Analysis:";
  "* Describe all primary observations in detail";
  "* Document any abnormalities with precise descriptions";
  "* Note relevant measurements and densities";
  "* Specify locations, sizes, shapes, and key characteristics";
  "* Indicate severity level (Normal/Mild/Moderate/Severe)";
  "";
  "3. Diagnostic Assessment:";
  "* State your primary diagnosis and confidence level";
  "* List potential differential diagnoses in order of likelihood";
  "* Provide evidence from the image supporting each diagnosis";
  "* Highlight any urgent or critical findings requiring immediate attention";
  "";
  "4. Patient-Friendly Summary:";
  "* Explain the findings in clear, simple language";
  "* Define any necessary medical terms";
  "* Use helpful analogies where appropriate";
  "* Address likely patient concerns";
  "";
  "5. Research Context:";
  "* Search recent medical literature for similar cases using DuckDuckGo";
  "* Find relevant treatment protocols";
  "* Identify recent technological advances in this area";
  "* Provide 2-3 key medical references supporting your analysis";
  "";
  "Please provide a comprehensive analysis covering ALL sections above."
]%string.

Definition temp_path : str := lit "temp_medical_image.png".

Definition upload_prompt : str := lit "Please upload an image to begin analysis.".

Definition invalid_format : str := lit "Invalid image format".

Definition incomplete_error : str :=
  lit "Error: Analysis seems incomplete. Please try again.".

Definition analysis_prompt : str :=
  ANALYSIS_QUERY ++ newline ++ newline
  ++ lit "IMPORTANT: Please ensure you address ALL sections (1-5) in your analysis.".

Definition error_message (e : Exception) : str :=
  lit "Error during analysis: " ++ str_of e.

Arguments lit : simpl never.
Arguments temp_path : simpl never.
Arguments upload_prompt : simpl never.
Arguments invalid_format : simpl never.
Arguments incomplete_error : simpl never.
Arguments analysis_prompt : simpl never.
Arguments error_message : simpl never.

(** ** The handler *)

(** [if os.path.exists(temp_path): os.remove(temp_path)] *)
Definition clean_up : M unit :=
  present ← os_path_exists temp_path;
  if (present : bool) then os_remove temp_path else mret tt.

(** The [try] body from [img.convert('RGB')] on. *)
Definition analyze_image (env : Env) (img : PILImage) : M str :=
  img ← Image_convert env img ModeRGB;
  Image_save env img temp_path;;
  gr_Info (lit "Analysis in progress... Please wait.");;
  response ← with_open_rb temp_path
               (medical_agent_run env analysis_prompt [temp_path]);
  clean_up;;
  match content response with
  | None => throw NoneType_strip
  | Some text =>
      if (len (strip text) <? 100)%nat then
        gr_Warning (lit "Analysis seems incomplete. Please try again.");;
        mret incomplete_error
      else
        gr_Success (lit "Analysis completed successfully!");;
        mret text
  end.

(** The whole [try] body. *)
Definition try_body (env : Env) (image : UploadedImage) : M str :=
  match image with
  | NdArray a => img ← Image_fromarray env a; analyze_image env img
  | PilImage img => analyze_image env img
  | _ => gr_Warning (lit "Invalid image format");; mret invalid_format
  end.

(** The [except Exception as e] clause. *)
Definition except_clause (e : Exception) : M str :=
  clean_up;;
  gr_Error (error_message e);;
  mret (error_message e).

Definition analyze_medical_image (env : Env) (image : UploadedImage) : M str :=
  match image with
  | PyNone =>
      gr_Warning (lit "Please upload an image first");;
      mret upload_prompt
  | _ => try_except (try_body env image) except_clause
  end.

(** ** Observations on a finished invocation *)

Definition is_call (ev : Event) : bool :=
  match ev with
  | AgentRun _ _ _ => true
  | _ => false
  end.

(** The calls to the external model recorded in a log. *)
Definition external_calls (l : list Event) : list Event := filter is_call l.

Definition file_exists (w : World) (path : str) : Prop := is_Some (fs w !! path).

(** The image as [img.convert('RGB')] receives it. *)
Definition decoded (env : Env) (image : UploadedImage) : option PILImage :=
  match image with
  | NdArray a => match fromarray env a with inr i => Some i | inl _ => None end
  | PilImage p => Some p
  | _ => None
  end.

(** An image is valid when PIL decodes it, converts it to RGB and writes
    it as PNG without raising; [normalized] is then the image written. *)
Definition normalized (env : Env) (image : UploadedImage) : option PILImage :=
  img ← decoded env image;
  data ← match convert_data env ModeRGB img with inr d => Some d | inl _ => None end;
  let rgb := {| im_mode := ModeRGB; im_size := im_size img; im_data := data |} in
  match save_outcome env rgb temp_path with
  | Saved => Some rgb
  | SaveFailed _ _ => None
  end.

Definition valid_image (env : Env) (image : UploadedImage) : Prop :=
  is_Some (normalized env image).

(** The events one invocation adds to the log. *)
Definition new_events (env : Env) (image : UploadedImage) (w : World) : list Event :=
  drop (length (log w)) (log (analyze_medical_image env image w).2).

(** The answer of the external model in one invocation: [None] when the
    model was not called, otherwise what the call gave, a response or an
    exception. *)
Definition model_reply (env : Env) (image : UploadedImage) (w : World)
  : option (Exception + RunResponse) :=
  match external_calls (new_events env image w) with
  | AgentRun prompt images disk :: _ => Some (agent_run env prompt images disk)
  | _ => None
  end.

(** The [try] block ends by raising [e]. *)
Definition raised_in_try (env : Env) (image : UploadedImage) (w : World)
    (e : Exception) : Prop :=
  ∃ w', try_body env image w = (inl e, w').

(** The three endings of an invocation that got past the input checks,
    by the string [s] it returns: the answer of the model, the
    incomplete-answer error, the message of a caught exception. *)
Definition ends_in_success (env : Env) (image : UploadedImage) (w : World)
    (s : str) : Prop :=
  ∃ response, model_reply env image w = Some (inr response)
              ∧ content response = Some s
              ∧ (100 ≤ len (strip s))%nat.

Definition ends_in_incomplete (env : Env) (image : UploadedImage) (w : World)
    (s : str) : Prop :=
  ∃ response text, model_reply env image w = Some (inr response)
                   ∧ content response = Some text
                   ∧ (len (strip text) < 100)%nat
                   ∧ s = incomplete_error.

Definition ends_in_caught_exception (env : Env) (image : UploadedImage)
    (w : World) (s : str) : Prop :=
  ∃ e, raised_in_try env image w e ∧ s = error_message e.


(** The notifications that follow a reply of the model. *)
Definition after_reply (reply : Exception + RunResponse) : list Event :=
  match reply with
  | inr {| content := Some text |} =>
      if (len (strip text) <? 100)%nat then
        [GrWarning (lit "Analysis seems incomplete. Please try again.")]
      else [GrSuccess (lit "Analysis completed successfully!")]
  | _ => []
  end.

(** ** The interface *)

(** The two components the click event binds: the image input, which
    holds a decoded image or nothing ([type="pil"]), and the markdown
    output. [output_text] is the value last handed to the output
    component; how the component formats it for display is not part of
    the script. *)
Record Blocks := { input_image : option PILImage; output_text : str }.

(** The interface as it is built, before any user action. *)
Definition demo : Blocks :=
  {| input_image := None;
     output_text := lit "Upload an image and click 'Analyze Image' to begin." |}.

(** What the image component hands to the handler. *)
Definition image_value (ui : Blocks) : UploadedImage :=
  match input_image ui with
  | Some p => PilImage p
  | None => PyNone
  end.

(** [analyze_button.click(fn=analyze_medical_image, inputs=[input_image],
    outputs=[output_text])]: the handler runs on the value of the image
    component and what it returns is handed to the output; when an
    exception leaves the handler, nothing is handed over. *)
Definition analyze_button_click (env : Env) (ui : Blocks) : M Blocks :=
  try_except
    (result ← analyze_medical_image env (image_value ui);
     mret {| input_image := input_image ui; output_text := result |})
    (λ _, mret ui).

(** What a user does: choose a file, clear the image, press the button.
    The click is the only event the script binds: choosing or clearing
    an image runs no code of the script. Each click meets its own state
    of the outside world. *)
Inductive Action :=
  | Upload (p : PILImage)
  | Clear
  | Click (env : Env).

Definition act (a : Action) (ui : Blocks) : M Blocks :=
  match a with
  | Upload p => mret {| input_image := Some p; output_text := output_text ui |}
  | Clear => mret {| input_image := None; output_text := output_text ui |}
  | Click env => analyze_button_click env ui
  end.

(** A sequence of user actions, one after the other. *)
Fixpoint session (actions : list Action) (ui : Blocks) : M Blocks :=
  match actions with
  | [] => mret ui
  | a :: rest => ui' ← act a ui; session rest ui'
  end.

Definition is_click (a : Action) : bool :=
  match a with
  | Click _ => true
  | _ => false
  end.

Definition clicks (actions : list Action) : nat := length (filter is_click actions).

Definition is_whitespace (s : str) : bool := forallb isspace s.

(** ** A mocked environment for the scenarios of the specification *)

Module Mock.

Definition TypeError := Raise "TypeError" (lit "Cannot handle this data type").

(** Two-dimensional [uint8] arrays decode to grey-scale images,
    [h x w x 3] ones to RGB; anything else is refused. *)
Definition mock_fromarray (a : ndarray) : Exception + PILImage :=
  if String.eqb (dtype a) "uint8" then
    match shape a with
    | [h; w] => inr {| im_mode := ModeL; im_size := (w, h);
                       im_data := Z.to_N <$> values a |}
    | [h; w; 3] => inr {| im_mode := ModeRGB; im_size := (w, h);
                          im_data := Z.to_N <$> values a |}
    | _ => inl TypeError
    end
  else inl TypeError.

Fixpoint drop_alpha (d : list N) : list N :=
  match d with
  | r :: g :: b :: _ :: d' => r :: g :: b :: drop_alpha d'
  | _ => []
  end.

Definition mock_convert_data (m : mode) (img : PILImage) : Exception + list N :=
  match m, im_mode img with
  | ModeRGB, ModeRGB => inr (im_data img)
  | ModeRGB, (ModeL | Mode1) => inr (v ← im_data img; [v; v; v])
  | ModeRGB, ModeRGBA => inr (drop_alpha (im_data img))
  | _, _ => inl (Raise "ValueError" (lit "conversion not supported"))
  end.

(** The external call is replaced by a fixed reply. *)
Definition env (reply : Exception + RunResponse) : Env :=
  {| fromarray := mock_fromarray;
     convert_data := mock_convert_data;
     save_outcome := λ _ _, Saved;
     agent_run := λ _ _ _, reply |}.

(** The same with a disk that refuses the write. *)
Definition env_disk_full (reply : Exception + RunResponse) : Env :=
  {| fromarray := mock_fromarray;
     convert_data := mock_convert_data;
     save_outcome := λ _ _,
       SaveFailed (Raise "OSError" (lit "[Errno 28] No space left on device"))
                  (Partial (RawFile []));
     agent_run := λ _ _ _, reply |}.

(** A 10 x 10 grey-scale array of zeros. *)
Definition zeros_10x10 : ndarray :=
  {| shape := [10; 10]; dtype := "uint8"; values := replicate 100 0%Z |}.

Definition says (text : str) : Exception + RunResponse :=
  inr {| content := Some text |}.

(** A markdown answer of 200 characters, the final line break included. *)
Definition markdown_200 : str :=
  lit "## Findings" ++ newline ++ replicate 178 120 ++ newline
  ++ lit "* normal" ++ newline.

Definition quota_exceeded : Exception :=
  Raise "RuntimeError" (lit "quota exceeded").

Definition clean : World := {| fs := ∅; log := [] |}.

(** A disk on which a file of the fixed name is already there. *)
Definition stale : World :=
  {| fs := {[ temp_path := RawFile [1; 2; 3] ]}; log := [] |}.



End Mock.

(** * Properties *)

(** ** The primitives *)

(** Unfolds the monad and its primitive actions. *)
Ltac unfold_M :=
  unfold try_except, gr_Warning, gr_Info, gr_Success, gr_Error, os_remove,
    os_path_exists, lift, throw, emit, set_fs, get_fs, mbind, M_bind, mret, M_ret.

Section Primitives.

Context (env : Env).

Lemma World_eta w : {| fs := fs w; log := log w |} = w.
Proof. by destruct w. Qed.

Lemma clean_up_run w :
  fs w !! temp_path ≠ Some Directory →
  clean_up w = (inr tt, {| fs := delete temp_path (fs w); log := log w |}).
Proof.
  intros Hd. unfold clean_up. unfold_M. case_bool_decide as Hp.
  - destruct (fs w !! temp_path) as [[| |]|] eqn:Hf; done.
  - rewrite delete_id; [by rewrite World_eta|].
    by apply eq_None_not_Some.
Qed.

(** A directory at the path stops the clean-up: [os.remove] raises and
    the disk stays as it is. *)
Lemma clean_up_directory w :
  fs w !! temp_path = Some Directory →
  clean_up w = (inl (IsADirectoryError temp_path), w).
Proof.
  intros Hd. unfold clean_up. unfold_M.
  rewrite bool_decide_true by (rewrite Hd; eauto). by rewrite Hd.
Qed.

(** The handler: when the clean-up goes through, the file is deleted and
    the message is built from the exception. *)
Lemma except_clause_run e w :
  fs w !! temp_path ≠ Some Directory →
  except_clause e w
  = (inr (error_message e), {| fs := delete temp_path (fs w); log := log w |}).
Proof.
  intros Hd. unfold except_clause. unfold mbind at 1, M_bind.
  rewrite clean_up_run by done. by unfold_M.
Qed.

(** When it does not, the exception of [os.remove] leaves the handler. *)
Lemma except_clause_directory e w :
  fs w !! temp_path = Some Directory →
  except_clause e w = (inl (IsADirectoryError temp_path), w).
Proof.
  intros Hd. unfold except_clause. unfold mbind at 1, M_bind.
  by rewrite clean_up_directory.
Qed.

Lemma except_clause_cases e w :
  except_clause e w
  = (inr (error_message e), {| fs := delete temp_path (fs w); log := log w |})
  ∨ except_clause e w = (inl (IsADirectoryError temp_path), w).
Proof.
  destruct (fs w !! temp_path) as [[| |]|] eqn:Hf.
  - left. apply except_clause_run. by rewrite Hf.
  - left. apply except_clause_run. by rewrite Hf.
  - right. by apply except_clause_directory.
  - left. apply except_clause_run. by rewrite Hf.
Qed.



Lemma except_clause_log e w : log (except_clause e w).2 = log w.
Proof. by destruct (except_clause_cases e w) as [->| ->]. Qed.

Lemma except_clause_returns e w s :
  (except_clause e w).1 = inr s →
  s = error_message e ∧ fs (except_clause e w).2 !! temp_path = None.
Proof.
  destruct (except_clause_cases e w) as [->| ->]; [|done].
  intros [= <-]. split; [done|]. apply lookup_delete_eq.
Qed.


Lemma error_message_not_incomplete e : error_message e ≠ incomplete_error.
Proof.
  intros H. apply (f_equal (take 6)) in H. vm_compute in H. discriminate.
Qed.

End Primitives.

(** ** The [try] block, path by path *)

Section Paths.

Context (env : Env).

Lemma try_body_decoded image img w :
  decoded env image = Some img → try_body env image w = analyze_image env img w.
Proof.
  destruct image as [|a|p|n]; cbn; try done.
  - unfold Image_fromarray. destruct (fromarray env a); [done|].
    intros [= ->]. by unfold_M.
  - by intros [= ->].
Qed.

Lemma analyze_image_saved img data w :
  convert_data env ModeRGB img = inr data →
  let rgb := {| im_mode := ModeRGB; im_size := im_size img; im_data := data |} in
  save_outcome env rgb temp_path = Saved →
  let disk := <[temp_path := PngFile rgb]> (fs w) in
  let lg := (log w ++ [GrInfo (lit "Analysis in progress... Please wait.")])
            ++ [AgentRun analysis_prompt [temp_path] disk] in
  let gone := delete temp_path disk in
  analyze_image env img w =
    match agent_run env analysis_prompt [temp_path] disk with
    | inl e => (inl e, {| fs := disk; log := lg |})
    | inr response =>
        match content response with
        | None => (inl NoneType_strip, {| fs := gone; log := lg |})
        | Some text =>
            if (len (strip text) <? 100)%nat then
              (inr incomplete_error,
               {| fs := gone;
                  log := lg ++ [GrWarning (lit "Analysis seems incomplete. Please try again.")] |})
            else
              (inr text,
               {| fs := gone;
                  log := lg ++ [GrSuccess (lit "Analysis completed successfully!")] |})
        end
    end.
Proof.
  intros Hc rgb Hs disk lg gone.
  unfold analyze_image, Image_convert, Image_save, with_open_rb, medical_agent_run.
  unfold_M. rewrite Hc. cbv beta iota. fold rgb. rewrite Hs. cbv beta iota.
  cbn [fs log]. fold disk.
  assert (Hl : disk !! temp_path = Some (PngFile rgb))
    by (subst disk; apply lookup_insert_eq).
  rewrite Hl. cbv beta iota. cbn [fs log].
  destruct (agent_run env analysis_prompt [temp_path] disk) as [e|response];
    [done|].
  rewrite clean_up_run by (cbn [fs]; by rewrite Hl). cbn [fs log]. fold gone.
  destruct (content response) as [text|]; [|done].
  by destruct (len (strip text) <? 100)%nat.
Qed.

(** A failed [save] raises, whatever it leaves at the path; nothing is
    logged and the model is not called. *)
Lemma analyze_image_save_failed img data e l w :
  convert_data env ModeRGB img = inr data →
  save_outcome env {| im_mode := ModeRGB; im_size := im_size img;
                      im_data := data |} temp_path = SaveFailed e l →
  ∃ disk, analyze_image env img w = (inl e, {| fs := disk; log := log w |})
          ∧ delete temp_path disk = delete temp_path (fs w).
Proof.
  intros Hc Hs.
  unfold analyze_image, Image_convert, Image_save. unfold_M.
  rewrite Hc. cbv beta iota. rewrite Hs.
  destruct l as [|f|]; cbv beta iota; cbn [fs log].
  - exists (fs w). by rewrite World_eta.
  - eexists. split; [done|]. by rewrite delete_insert_eq.
  - eexists. split; [done|]. by rewrite delete_delete_eq.
Qed.

Lemma analyze_image_convert_failed img e w :
  convert_data env ModeRGB img = inl e →
  analyze_image env img w = (inl e, w).
Proof.
  intros Hc. unfold analyze_image, Image_convert. unfold_M. by rewrite Hc.
Qed.

(** An accepted image that cannot be normalized makes the [try] block
    raise before the external call. *)
Lemma try_body_not_normalized image w :
  accepted image = true → normalized env image = None →
  ∃ e disk, try_body env image w = (inl e, {| fs := disk; log := log w |})
            ∧ delete temp_path disk = delete temp_path (fs w).
Proof.
  intros Ha Hn. unfold normalized in Hn.
  destruct (decoded env image) as [img|] eqn:Hd.
  - rewrite (try_body_decoded _ _ _ Hd).
    cbn in Hn.
    destruct (convert_data env ModeRGB img) as [e|data] eqn:Hc.
    + rewrite (analyze_image_convert_failed _ _ _ Hc).
      exists e, (fs w). by rewrite World_eta.
    + cbn in Hn.
      destruct (save_outcome env _ temp_path) as [|e l] eqn:Hs; [done|].
      destruct (analyze_image_save_failed _ _ _ _ w Hc Hs) as (disk & -> & Hg).
      eauto.
  - destruct image as [|a|p|n]; try done. cbn in Hd.
    cbn. unfold Image_fromarray. unfold_M.
    destruct (fromarray env a) as [e|i]; [|done].
    exists e, (fs w). by rewrite World_eta.
Qed.

Lemma normalized_decoded image rgb :
  normalized env image = Some rgb →
  ∃ img data,
    decoded env image = Some img
    ∧ convert_data env ModeRGB img = inr data
    ∧ rgb = {| im_mode := ModeRGB; im_size := im_size img; im_data := data |}
    ∧ save_outcome env rgb temp_path = Saved.
Proof.
  unfold normalized.
  destruct (decoded env image) as [img|]; [|done]. cbn.
  destruct (convert_data env ModeRGB img) as [e|data] eqn:Hc; [done|]. cbn.
  destruct (save_outcome env _ temp_path) eqn:Hs; [|done].
  intros [= <-]. by exists img, data.
Qed.

End Paths.

(** ** The handler as a whole *)

Section Handler.

Context (env : Env).

Lemma analyze_accepted image w :
  accepted image = true →
  analyze_medical_image env image w
  = try_except (try_body env image) except_clause w.
Proof. by destruct image. Qed.

(** The run of the handler on a valid image, by the reply of the model. *)
Lemma analyze_normalized image rgb w :
  normalized env image = Some rgb →
  let disk := <[temp_path := PngFile rgb]> (fs w) in
  let lg := log w ++ [GrInfo (lit "Analysis in progress... Please wait.");
                      AgentRun analysis_prompt [temp_path] disk] in
  let gone := delete temp_path (fs w) in
  analyze_medical_image env image w =
    match agent_run env analysis_prompt [temp_path] disk with
    | inl e => (inr (error_message e), {| fs := gone; log := lg |})
    | inr response =>
        match content response with
        | None => (inr (error_message NoneType_strip), {| fs := gone; log := lg |})
        | Some text =>
            if (len (strip text) <? 100)%nat then
              (inr incomplete_error,
               {| fs := gone;
                  log := lg ++ [GrWarning (lit "Analysis seems incomplete. Please try again.")] |})
            else
              (inr text,
               {| fs := gone;
                  log := lg ++ [GrSuccess (lit "Analysis completed successfully!")] |})
        end
    end.
Proof.
  intros Hn disk lg gone.
  destruct (normalized_decoded env _ _ Hn) as (img & data & Hd & Hc & -> & Hs).
  rewrite analyze_accepted by (by destruct image).
  unfold try_except. rewrite (try_body_decoded env _ _ _ Hd).
  rewrite (analyze_image_saved env _ _ w Hc Hs). fold disk.
  replace ((log w ++ [GrInfo (lit "Analysis in progress... Please wait.")])
           ++ [AgentRun analysis_prompt [temp_path] disk]) with lg
    by (subst lg; by rewrite <- app_assoc).
  replace (delete temp_path disk) with gone
    by (subst gone disk; by rewrite delete_insert_eq).
  destruct (agent_run env analysis_prompt [temp_path] disk) as [e|response].
  { rewrite except_clause_run
      by (cbn [fs]; subst disk; by rewrite lookup_insert_eq).
    cbn [fs log]. subst disk. by rewrite delete_insert_eq. }
  destruct (content response) as [text|].
  - by destruct (len (strip text) <? 100)%nat.
  - rewrite except_clause_run
      by (cbn [fs]; subst gone; by rewrite lookup_delete_eq).
    cbn [fs log]. subst gone. by rewrite delete_delete_eq.
Qed.

(** The run of the handler on an accepted image that PIL cannot decode,
    convert or write: the [try] block raises before the external call
    and the except clause takes over. *)
Lemma analyze_not_normalized image w :
  accepted image = true → normalized env image = None →
  ∃ e disk,
    try_body env image w = (inl e, {| fs := disk; log := log w |})
    ∧ analyze_medical_image env image w
      = except_clause e {| fs := disk; log := log w |}.
Proof.
  intros Ha Hn.
  destruct (try_body_not_normalized env image w Ha Hn) as (e & disk & Ht & Hg).
  exists e, disk. split; [done|].
  rewrite analyze_accepted by done. unfold try_except. by rewrite Ht.
Qed.

Lemma log_not_normalized image w :
  accepted image = true → normalized env image = None →
  log (analyze_medical_image env image w).2 = log w.
Proof.
  intros Ha Hn.
  destruct (analyze_not_normalized image w Ha Hn) as (e & disk & _ & ->).
  by rewrite except_clause_log.
Qed.

Lemma analyze_none w :
  analyze_medical_image env PyNone w
  = (inr upload_prompt,
     {| fs := fs w;
        log := log w ++ [GrWarning (lit "Please upload an image first")] |}).
Proof. done. Qed.

Lemma analyze_object name w :
  analyze_medical_image env (PyObject name) w
  = (inr invalid_format,
     {| fs := fs w;
        log := log w ++ [GrWarning (lit "Invalid image format")] |}).
Proof. done. Qed.

(** The external calls of one invocation. *)
Lemma calls_normalized image rgb w :
  normalized env image = Some rgb →
  external_calls (new_events env image w)
  = [AgentRun analysis_prompt [temp_path] (<[temp_path := PngFile rgb]> (fs w))].
Proof.
  intros Hn. unfold new_events. rewrite (analyze_normalized _ _ w Hn).
  destruct (agent_run env _ _ _) as [e|response]; cbn [snd log].
  { by rewrite drop_app_length. }
  destruct (content response) as [text|]; cbn [snd log].
  - destruct (len (strip text) <? 100)%nat; cbn [snd log];
      by rewrite <- app_assoc, drop_app_length.
  - by rewrite drop_app_length.
Qed.

Lemma calls_not_normalized image w :
  normalized env image = None →
  external_calls (new_events env image w) = [].
Proof.
  intros Hn. unfold new_events.
  destruct (accepted image) eqn:Ha.
  - rewrite (log_not_normalized image w Ha Hn). by rewrite drop_all.
  - destruct image as [|a|p|n]; try done.
    + rewrite analyze_none. cbn [snd log]. by rewrite drop_app_length.
    + rewrite analyze_object. cbn [snd log]. by rewrite drop_app_length.
Qed.

Lemma model_reply_normalized image rgb w :
  normalized env image = Some rgb →
  model_reply env image w
  = Some (agent_run env analysis_prompt [temp_path]
                    (<[temp_path := PngFile rgb]> (fs w))).
Proof.
  intros Hn. unfold model_reply. by rewrite (calls_normalized _ _ w Hn).
Qed.

(** A reply means that the image was normalized and the model called on
    the disk that holds it. *)
Lemma model_reply_inv image w reply :
  model_reply env image w = Some reply →
  ∃ rgb, normalized env image = Some rgb
         ∧ agent_run env analysis_prompt [temp_path]
                     (<[temp_path := PngFile rgb]> (fs w)) = reply.
Proof.
  destruct (normalized env image) as [rgb|] eqn:Hn.
  - rewrite (model_reply_normalized _ _ w Hn). intros [= <-]. eauto.
  - unfold model_reply. by rewrite (calls_not_normalized _ w Hn).
Qed.

(** A long enough answer is returned as it is. *)
Lemma long_answer_returned image w response text :
  model_reply env image w = Some (inr response) →
  content response = Some text →
  (100 ≤ len (strip text))%nat →
  (analyze_medical_image env image w).1 = inr text.
Proof.
  intros Hr Hc Hl. destruct (model_reply_inv _ _ _ Hr) as (rgb & Hn & Ha).
  rewrite (analyze_normalized _ _ w Hn), Ha, Hc.
  destruct (Nat.ltb_spec (len (strip text)) 100); [lia|done].
Qed.

(** An exception in the [try] block ends in the except clause. *)
Lemma raised_handled image w e w' :
  try_body env image w = (inl e, w') →
  analyze_medical_image env image w = except_clause e w'.
Proof.
  intros Ht.
  assert (Ha : accepted image = true) by (by destruct image).
  rewrite analyze_accepted by done. unfold try_except. by rewrite Ht.
Qed.



(** The [try] block on a valid image, by the reply of the model. *)
Lemma try_body_normalized image rgb w :
  normalized env image = Some rgb →
  let disk := <[temp_path := PngFile rgb]> (fs w) in
  match agent_run env analysis_prompt [temp_path] disk with
  | inl e => ∃ lg, try_body env image w = (inl e, {| fs := disk; log := lg |})
  | inr response =>
      match content response with
      | None => ∃ w', try_body env image w = (inl NoneType_strip, w')
      | Some text => ∃ s w', try_body env image w = (inr s, w')
      end
  end.
Proof.
  intros Hn disk.
  destruct (normalized_decoded env _ _ Hn) as (img & data & Hd & Hc & -> & Hs).
  rewrite (try_body_decoded env _ _ _ Hd).
  rewrite (analyze_image_saved env _ _ w Hc Hs). fold disk.
  destruct (agent_run env _ _ disk) as [e|response]; [by eexists|].
  destruct (content response) as [text|]; [|by eexists].
  destruct (len (strip text) <? 100)%nat; by eexists _, _.
Qed.

(** An exception of the external call is reported: the file that was
    just written is one that the clean-up deletes. *)
Lemma reply_raised_reported image w e :
  model_reply env image w = Some (inl e) →
  (analyze_medical_image env image w).1 = inr (error_message e)
  ∧ fs (analyze_medical_image env image w).2 !! temp_path = None.
Proof.
  intros Hr. destruct (model_reply_inv _ _ _ Hr) as (rgb & Hn & Ha).
  rewrite (analyze_normalized _ _ w Hn), Ha. cbn [fst snd fs].
  split; [done|]. apply lookup_delete_eq.
Qed.

(** When the handler returns on an accepted image, the transient file is
    not on the disk. *)
Lemma returned_file_gone image w s :
  accepted image = true →
  (analyze_medical_image env image w).1 = inr s →
  fs (analyze_medical_image env image w).2 !! temp_path = None.
Proof.
  intros Ha. destruct (normalized env image) as [rgb|] eqn:Hn.
  - rewrite (analyze_normalized _ _ w Hn). intros _.
    destruct (agent_run env _ _ _) as [e|response];
      [apply lookup_delete_eq|].
    destruct (content response) as [text|]; [|apply lookup_delete_eq].
    destruct (len (strip text) <? 100)%nat; apply lookup_delete_eq.
  - destruct (analyze_not_normalized image w Ha Hn) as (e & disk & _ & ->).
    intros Hs. by apply except_clause_returns in Hs as [_ Hs].
Qed.

End Handler.

(** ** Stripping never lengthens a string *)

Lemma lstrip_length s : (len (lstrip s) ≤ len s)%nat.
Proof.
  unfold len. induction s as [|c s IH]; [done|].
  cbn [lstrip]. destruct (isspace c); cbn [length]; lia.
Qed.

Lemma strip_length s : (len (strip s) ≤ len s)%nat.
Proof.
  unfold strip, rstrip, len. rewrite length_rev.
  etransitivity; [apply lstrip_length|].
  unfold len. rewrite length_rev. apply lstrip_length.
Qed.

(** ** A write that fails *)

(** With a disk that refuses the write, the exception of [save] comes
    back as the message; the model is not called and the partial file is
    deleted. *)
Example disk_full_reported :
  let run := analyze_medical_image (Mock.env_disk_full (Mock.says Mock.markdown_200))
                                   (NdArray Mock.zeros_10x10) Mock.stale in
  run.1 = inr (lit "Error during analysis: [Errno 28] No space left on device")
  ∧ fs run.2 !! temp_path = None
  ∧ external_calls (log run.2) = [].
Proof. vm_compute. done. Qed.

(** * The claims *)

(** C1. When the model answers and the stripped content of the answer is
    shorter than 100 characters, the handler returns exactly
    "Error: Analysis seems incomplete. Please try again." and not the
    content it received. *)
Theorem short_answer_is_incomplete env image w response text :
  model_reply env image w = Some (inr response) →
  content response = Some text →
  (len (strip text) < 100)%nat →
  (analyze_medical_image env image w).1 = inr incomplete_error
  ∧ incomplete_error = lit "Error: Analysis seems incomplete. Please try again."
  ∧ (text ≠ incomplete_error →
     (analyze_medical_image env image w).1 ≠ inr text).
Proof.
  intros Hr Hc Hl. destruct (model_reply_inv _ _ _ _ Hr) as (rgb & Hn & Ha).
  assert (Hres : (analyze_medical_image env image w).1 = inr incomplete_error).
  { rewrite (analyze_normalized _ _ _ w Hn), Ha, Hc.
    destruct (Nat.ltb_spec (len (strip text)) 100); [done|lia]. }
  rewrite Hres. split_and!; [done|done|]. intros Hne [= Heq]. by apply Hne.
Qed.

Lemma short_answer_is_incomplete_witness :
  model_reply (Mock.env (Mock.says (lit "ok"))) (NdArray Mock.zeros_10x10)
              Mock.clean
  = Some (Mock.says (lit "ok"))
  ∧ (len (strip (lit "ok")) < 100)%nat
  ∧ (analyze_medical_image (Mock.env (Mock.says (lit "ok")))
                           (NdArray Mock.zeros_10x10) Mock.clean).1
    = inr incomplete_error.
Proof.
  split; [vm_compute; reflexivity|]. split; [vm_compute; lia|].
  apply (short_answer_is_incomplete
           (Mock.env (Mock.says (lit "ok"))) (NdArray Mock.zeros_10x10)
           Mock.clean {| content := Some (lit "ok") |} (lit "ok")).
  - vm_compute; reflexivity.
  - reflexivity.
  - vm_compute; lia.
Defined.

(** C2. Whenever the handler returns on one of its three endings, the
    success, the incomplete-answer error or a caught exception, no file
    exists at "temp_medical_image.png". These three are the endings of
    the invocations whose image is a pixel array or a decoded image. *)
Theorem transient_file_gone env image w s :
  (analyze_medical_image env image w).1 = inr s →
  (ends_in_success env image w s
   ∨ ends_in_incomplete env image w s
   ∨ ends_in_caught_exception env image w s →
   ¬ file_exists (analyze_medical_image env image w).2 temp_path)
  ∧ (ends_in_success env image w s
     ∨ ends_in_incomplete env image w s
     ∨ ends_in_caught_exception env image w s
     ↔ accepted image = true).
Proof.
  intros Hs.
  assert (Hacc : ends_in_success env image w s
                 ∨ ends_in_incomplete env image w s
                 ∨ ends_in_caught_exception env image w s
                 → accepted image = true).
  { intros [(r & Hr & _)|[(r & t & Hr & _)|(e & [w' Ht] & _)]].
    - destruct (model_reply_inv _ _ _ _ Hr) as (rgb & Hn & _).
      destruct (normalized_decoded env _ _ Hn) as (img & _ & Hd & _).
      by destruct image.
    - destruct (model_reply_inv _ _ _ _ Hr) as (rgb & Hn & _).
      destruct (normalized_decoded env _ _ Hn) as (img & _ & Hd & _).
      by destruct image.
    - by destruct image. }
  split.
  - intros He. unfold file_exists.
    rewrite (returned_file_gone env image w s (Hacc He) Hs). by intros [? ?].
  - split; [exact Hacc|]. intros Ha.
    destruct (normalized env image) as [rgb|] eqn:Hn.
    + pose proof (model_reply_normalized env _ _ w Hn) as Hr.
      pose proof (try_body_normalized env _ _ w Hn) as Hb. cbn zeta in Hb.
      rewrite (analyze_normalized env _ _ w Hn) in Hs.
      destruct (agent_run env _ _ _) as [e|[[text|]]]; cbn [content] in Hs, Hb.
      * injection Hs as <-. right; right. exists e.
        destruct Hb as [lg Hb]. split; [by eexists|done].
      * destruct (Nat.ltb_spec (len (strip text)) 100) as [Hl|Hl].
        -- injection Hs as <-. right; left.
           by exists {| content := Some text |}, text.
        -- injection Hs as <-. left. by exists {| content := Some text |}.
      * injection Hs as <-. right; right. exists NoneType_strip.
        destruct Hb as [w' Hb]. split; [by eexists|done].
    + destruct (analyze_not_normalized env image w Ha Hn) as (e & disk & Ht & Hrun).
      rewrite Hrun in Hs. apply except_clause_returns in Hs as [-> _].
      right; right. exists e. split; [by eexists|done].
Qed.

Lemma transient_file_gone_witness :
  (analyze_medical_image (Mock.env (Mock.says Mock.markdown_200))
                         (NdArray Mock.zeros_10x10) Mock.stale).1
  = inr Mock.markdown_200
  ∧ ends_in_success (Mock.env (Mock.says Mock.markdown_200))
                    (NdArray Mock.zeros_10x10) Mock.stale Mock.markdown_200
  ∧ file_exists Mock.stale temp_path
  ∧ ¬ file_exists
        (analyze_medical_image (Mock.env (Mock.says Mock.markdown_200))
                               (NdArray Mock.zeros_10x10) Mock.stale).2
        temp_path.
Proof.
  assert (Hs : (analyze_medical_image (Mock.env (Mock.says Mock.markdown_200))
                                      (NdArray Mock.zeros_10x10) Mock.stale).1
               = inr Mock.markdown_200) by (vm_compute; reflexivity).
  assert (He : ends_in_success (Mock.env (Mock.says Mock.markdown_200))
                 (NdArray Mock.zeros_10x10) Mock.stale Mock.markdown_200).
  { exists {| content := Some Mock.markdown_200 |}.
    split; [vm_compute; reflexivity|]. split; [reflexivity|vm_compute; lia]. }
  split; [exact Hs|]. split; [exact He|].
  split; [unfold file_exists; vm_compute; eauto|].
  exact (proj1 (transient_file_gone _ _ _ _ Hs) (or_introl He)).
Defined.

(** C3. Called with None, the handler makes no call to the external
    model and returns "Please upload an image to begin analysis.". *)
Theorem missing_image_no_call env w :
  (analyze_medical_image env PyNone w).1 = inr upload_prompt
  ∧ upload_prompt = lit "Please upload an image to begin analysis."
  ∧ external_calls (new_events env PyNone w) = []
  ∧ model_reply env PyNone w = None.
Proof.
  assert (Hc : external_calls (new_events env PyNone w) = [])
    by (by apply calls_not_normalized).
  split_and!; try done. unfold model_reply. by rewrite Hc.
Qed.

(** C4. For every valid image (a pixel array or a decoded image that PIL
    decodes, converts and writes without raising), of whatever colour
    mode, the external model is called on a disk that holds, at
    "temp_medical_image.png", an image file in mode RGB with three bands,
    whatever was at that path before; the other files are untouched. *)
Theorem normalizer_writes_rgb env image w :
  valid_image env image →
  ∃ rgb disk,
    normalized env image = Some rgb
    ∧ external_calls (new_events env image w)
      = [AgentRun analysis_prompt [temp_path] disk]
    ∧ disk = <[temp_path := PngFile rgb]> (fs w)
    ∧ disk !! temp_path = Some (PngFile rgb)
    ∧ im_mode rgb = ModeRGB
    ∧ bands (im_mode rgb) = 3%nat.
Proof.
  intros [rgb Hn]. exists rgb, (<[temp_path := PngFile rgb]> (fs w)).
  destruct (normalized_decoded env _ _ Hn) as (img & data & _ & _ & Hrgb & _).
  split_and!; try done.
  - by apply calls_normalized.
  - apply lookup_insert_eq.
  - by rewrite Hrgb.
  - by rewrite Hrgb.
Qed.

Lemma normalizer_writes_rgb_witness :
  valid_image (Mock.env (Mock.says Mock.markdown_200)) (NdArray Mock.zeros_10x10)
  ∧ ∃ rgb disk,
      normalized (Mock.env (Mock.says Mock.markdown_200))
                 (NdArray Mock.zeros_10x10) = Some rgb
      ∧ external_calls (new_events (Mock.env (Mock.says Mock.markdown_200))
                                   (NdArray Mock.zeros_10x10) Mock.stale)
        = [AgentRun analysis_prompt [temp_path] disk]
      ∧ disk = <[temp_path := PngFile rgb]> (fs Mock.stale)
      ∧ disk !! temp_path = Some (PngFile rgb)
      ∧ im_mode rgb = ModeRGB
      ∧ bands (im_mode rgb) = 3%nat.
Proof.
  split.
  - unfold valid_image. vm_compute. eauto.
  - apply (normalizer_writes_rgb (Mock.env (Mock.says Mock.markdown_200))
             (NdArray Mock.zeros_10x10) Mock.stale).
    unfold valid_image. vm_compute. eauto.
Defined.

(** C5. When the model answers and the stripped content of the answer has
    at least 100 characters, the handler returns the content as it
    received it, stripped or not. *)
Theorem complete_answer_returned env image w response text :
  model_reply env image w = Some (inr response) →
  content response = Some text →
  (100 ≤ len (strip text))%nat →
  (analyze_medical_image env image w).1 = inr text
  ∧ (strip text ≠ text →
     (analyze_medical_image env image w).1 ≠ inr (strip text)).
Proof.
  intros Hr Hc Hl.
  rewrite (long_answer_returned env _ _ _ _ Hr Hc Hl).
  split; [done|]. intros Hne [= Heq]. by apply Hne.
Qed.

Lemma complete_answer_returned_witness :
  model_reply (Mock.env (Mock.says Mock.markdown_200))
              (NdArray Mock.zeros_10x10) Mock.clean
  = Some (Mock.says Mock.markdown_200)
  ∧ len Mock.markdown_200 = 200%nat
  ∧ len (strip Mock.markdown_200) = 199%nat
  ∧ (analyze_medical_image (Mock.env (Mock.says Mock.markdown_200))
                           (NdArray Mock.zeros_10x10) Mock.clean).1
    = inr Mock.markdown_200
  ∧ (strip Mock.markdown_200 ≠ Mock.markdown_200 →
     (analyze_medical_image (Mock.env (Mock.says Mock.markdown_200))
                            (NdArray Mock.zeros_10x10) Mock.clean).1
     ≠ inr (strip Mock.markdown_200)).
Proof.
  assert (Hr : model_reply (Mock.env (Mock.says Mock.markdown_200))
                           (NdArray Mock.zeros_10x10) Mock.clean
               = Some (Mock.says Mock.markdown_200)) by (vm_compute; reflexivity).
  split; [exact Hr|]. split; [reflexivity|]. split; [vm_compute; reflexivity|].
  apply (complete_answer_returned
           (Mock.env (Mock.says Mock.markdown_200)) (NdArray Mock.zeros_10x10)
           Mock.clean {| content := Some Mock.markdown_200 |} Mock.markdown_200).
  - exact Hr.
  - reflexivity.
  - vm_compute; lia.
Defined.

(** C6. Called with an object that is neither None, nor a pixel array,
    nor a decoded image, the handler returns "Invalid image format" and
    makes no call to the external model. *)
Theorem invalid_format_aborts env image w :
  accepted image = false → image ≠ PyNone →
  (analyze_medical_image env image w).1 = inr invalid_format
  ∧ invalid_format = lit "Invalid image format"
  ∧ external_calls (new_events env image w) = []
  ∧ model_reply env image w = None.
Proof.
  intros Ha Hne.
  assert (Hc : external_calls (new_events env image w) = []).
  { apply calls_not_normalized. by destruct image. }
  destruct image; try done.
  split_and!; try done. unfold model_reply. by rewrite Hc.
Qed.

Lemma invalid_format_aborts_witness :
  accepted (PyObject "str") = false ∧ PyObject "str" ≠ PyNone
  ∧ (analyze_medical_image (Mock.env (Mock.says Mock.markdown_200))
                           (PyObject "str") Mock.clean).1
    = inr invalid_format
  ∧ external_calls (new_events (Mock.env (Mock.says Mock.markdown_200))
                               (PyObject "str") Mock.clean) = [].
Proof.
  split; [reflexivity|]. split; [discriminate|].
  pose proof (invalid_format_aborts
                (Mock.env (Mock.says Mock.markdown_200)) (PyObject "str")
                Mock.clean eq_refl ltac:(discriminate)) as (H1 & _ & H2 & _).
  exact (conj H1 H2).
Defined.




(** C8. An invocation with a valid image makes exactly one call to the
    external model, also when that call fails; an invocation with any
    other input makes none; so no invocation makes more than one. *)
Theorem one_external_call env image w :
  (valid_image env image →
   length (external_calls (new_events env image w)) = 1%nat)
  ∧ (∀ e, model_reply env image w = Some (inl e) →
          length (external_calls (new_events env image w)) = 1%nat)
  ∧ (¬ valid_image env image →
     length (external_calls (new_events env image w)) = 0%nat)
  ∧ (length (external_calls (new_events env image w)) ≤ 1)%nat.
Proof.
  destruct (normalized env image) as [rgb|] eqn:Hn.
  - rewrite (calls_normalized env _ _ w Hn). split_and!; try done.
    intros Hv. destruct Hv. unfold valid_image. by rewrite Hn.
  - rewrite (calls_not_normalized env _ w Hn). split_and!.
    + unfold valid_image. rewrite Hn. by intros [? ?].
    + intros e Hr. destruct (model_reply_inv _ _ _ _ Hr) as (rgb & Hn' & _).
      congruence.
    + done.
    + cbn. lia.
Qed.

Lemma one_external_call_witness :
  valid_image (Mock.env (inl Mock.quota_exceeded)) (NdArray Mock.zeros_10x10)
  ∧ length (external_calls
              (new_events (Mock.env (inl Mock.quota_exceeded))
                          (NdArray Mock.zeros_10x10) Mock.clean)) = 1%nat.
Proof.
  assert (Hv : valid_image (Mock.env (inl Mock.quota_exceeded))
                           (NdArray Mock.zeros_10x10))
    by (unfold valid_image; vm_compute; eauto).
  split; [exact Hv|].
  exact (proj1 (one_external_call (Mock.env (inl Mock.quota_exceeded))
                                  (NdArray Mock.zeros_10x10) Mock.clean) Hv).
Defined.

(** C9. The threshold is strict: when the stripped content of the answer
    has exactly 100 characters, the handler returns the content, not the
    incomplete-answer error. *)
Theorem threshold_is_strict env image w response text :
  model_reply env image w = Some (inr response) →
  content response = Some text →
  len (strip text) = 100%nat →
  (analyze_medical_image env image w).1 = inr text
  ∧ (analyze_medical_image env image w).1 ≠ inr incomplete_error.
Proof.
  intros Hr Hc Hl.
  assert (Hret : (analyze_medical_image env image w).1 = inr text)
    by (apply (long_answer_returned env _ _ _ _ Hr Hc); lia).
  rewrite Hret. split; [done|]. intros [= ->].
  pose proof (strip_length incomplete_error) as Hs. rewrite Hl in Hs.
  vm_compute in Hs. lia.
Qed.

Lemma threshold_is_strict_witness :
  model_reply (Mock.env (Mock.says (replicate 100 120)))
              (NdArray Mock.zeros_10x10) Mock.clean
  = Some (Mock.says (replicate 100 120))
  ∧ len (strip (replicate 100 120)) = 100%nat
  ∧ (analyze_medical_image (Mock.env (Mock.says (replicate 100 120)))
                           (NdArray Mock.zeros_10x10) Mock.clean).1
    = inr (replicate 100 120).
Proof.
  split_and!; [vm_compute; reflexivity | vm_compute; reflexivity |].
  apply (threshold_is_strict
           (Mock.env (Mock.says (replicate 100 120))) (NdArray Mock.zeros_10x10)
           Mock.clean {| content := Some (replicate 100 120) |}
           (replicate 100 120)).
  - vm_compute; reflexivity.
  - reflexivity.
  - vm_compute; reflexivity.
Defined.

(** C10. The length check is for answers of the model only: when the
    external call raises, the handler returns "Error during analysis: "
    followed by the text of the exception, however short, and never the
    incomplete-answer error in its place. *)
Theorem error_message_not_checked env image w e :
  model_reply env image w = Some (inl e) →
  (analyze_medical_image env image w).1
  = inr (lit "Error during analysis: " ++ str_of e)
  ∧ (analyze_medical_image env image w).1 ≠ inr incomplete_error.
Proof.
  intros Hr. destruct (reply_raised_reported env _ _ _ Hr) as [Hres _].
  rewrite Hres. split; [done|].
  intros H. apply (error_message_not_incomplete e). congruence.
Qed.

Lemma error_message_not_checked_witness :
  model_reply (Mock.env (inl Mock.quota_exceeded)) (NdArray Mock.zeros_10x10)
              Mock.clean
  = Some (inl Mock.quota_exceeded)
  ∧ (len (strip (lit "Error during analysis: quota exceeded")) < 100)%nat
  ∧ (analyze_medical_image (Mock.env (inl Mock.quota_exceeded))
                           (NdArray Mock.zeros_10x10) Mock.clean).1
    = inr (lit "Error during analysis: quota exceeded").
Proof.
  split_and!; [vm_compute; reflexivity | vm_compute; lia |].
  apply (error_message_not_checked
           (Mock.env (inl Mock.quota_exceeded)) (NdArray Mock.zeros_10x10)
           Mock.clean Mock.quota_exceeded).
  vm_compute; reflexivity.
Defined.

(** * Further properties of the handler and of the interface *)

(** ** White space around an answer *)

Lemma lstrip_whitespace ws t :
  is_whitespace ws = true → lstrip (ws ++ t) = lstrip t.
Proof.
  unfold is_whitespace. induction ws as [|c ws IH]; [done|].
  cbn [forallb app lstrip]. intros [Hc Hws]%andb_prop. rewrite Hc. by apply IH.
Qed.

Lemma lstrip_nil_whitespace t : lstrip t = [] ↔ is_whitespace t = true.
Proof.
  unfold is_whitespace. induction t as [|c t IH]; [done|].
  cbn [forallb lstrip]. destruct (isspace c); [done|].
  split; discriminate.
Qed.

Lemma lstrip_app t u : lstrip t ≠ [] → lstrip (t ++ u) = lstrip t ++ u.
Proof.
  induction t as [|c t IH]; [done|].
  cbn [app lstrip]. destruct (isspace c); [apply IH|done].
Qed.

Lemma is_whitespace_rev s : is_whitespace (rev s) = is_whitespace s.
Proof.
  unfold is_whitespace. induction s as [|c s IH]; [done|].
  cbn [rev forallb]. rewrite forallb_app, IH. cbn [forallb].
  rewrite andb_true_r. apply andb_comm.
Qed.

Lemma rstrip_whitespace t ws :
  is_whitespace ws = true → rstrip (t ++ ws) = rstrip t.
Proof.
  intros Hws. unfold rstrip. rewrite rev_app_distr.
  rewrite lstrip_whitespace; [done|]. by rewrite is_whitespace_rev.
Qed.

(** White space before and after a text does not change what [strip]
    gives. *)
Lemma strip_padded a t b :
  is_whitespace a = true → is_whitespace b = true →
  strip (a ++ t ++ b) = strip t.
Proof.
  intros Ha Hb. unfold strip. rewrite (lstrip_whitespace a) by done.
  destruct (lstrip t) as [|c t'] eqn:Ht.
  - apply lstrip_nil_whitespace in Ht.
    assert (Hall : is_whitespace (t ++ b) = true).
    { unfold is_whitespace in *. rewrite forallb_app, Ht, Hb. done. }
    apply lstrip_nil_whitespace in Hall. by rewrite Hall.
  - rewrite lstrip_app by (rewrite Ht; done). rewrite Ht.
    by apply rstrip_whitespace.
Qed.

Lemma strip_whitespace s : is_whitespace s = true → strip s = [].
Proof.
  intros Hs. unfold strip. apply lstrip_nil_whitespace in Hs. by rewrite Hs.
Qed.

(** ** What one invocation logs *)

Section Events.

Context (env : Env).

Lemma new_events_normalized image rgb w :
  normalized env image = Some rgb →
  let disk := <[temp_path := PngFile rgb]> (fs w) in
  new_events env image w
  = [GrInfo (lit "Analysis in progress... Please wait.");
     AgentRun analysis_prompt [temp_path] disk]
    ++ after_reply (agent_run env analysis_prompt [temp_path] disk).
Proof.
  intros Hn disk. unfold new_events. rewrite (analyze_normalized _ _ _ w Hn).
  fold disk. destruct (agent_run env _ _ disk) as [e|[[text|]]]; cbn [content after_reply].
  - cbn [snd log]. by rewrite drop_app_length, app_nil_r.
  - destruct (len (strip text) <? 100)%nat; cbn [snd log];
      by rewrite <- app_assoc, drop_app_length.
  - cbn [snd log]. by rewrite drop_app_length, app_nil_r.
Qed.

Lemma new_events_not_normalized image w :
  accepted image = true → normalized env image = None →
  new_events env image w = [].
Proof.
  intros Ha Hn. unfold new_events.
  rewrite (log_not_normalized env image w Ha Hn). by rewrite drop_all.
Qed.

Lemma new_events_none w :
  new_events env PyNone w = [GrWarning (lit "Please upload an image first")].
Proof.
  unfold new_events. rewrite analyze_none. cbn [snd log].
  by rewrite drop_app_length.
Qed.

Lemma new_events_object name w :
  new_events env (PyObject name) w = [GrWarning (lit "Invalid image format")].
Proof.
  unfold new_events. rewrite analyze_object. cbn [snd log].
  by rewrite drop_app_length.
Qed.

(** The log only grows, by the events of the invocation. *)
Lemma log_grows image w :
  log (analyze_medical_image env image w).2 = log w ++ new_events env image w.
Proof.
  destruct (normalized env image) as [rgb|] eqn:Hn.
  - rewrite (new_events_normalized _ _ w Hn).
    rewrite (analyze_normalized _ _ _ w Hn).
    destruct (agent_run env _ _ _) as [e|[[text|]]]; cbn [content after_reply].
    + cbn [snd log]. by rewrite app_nil_r.
    + destruct (len (strip text) <? 100)%nat; cbn [snd log];
        by rewrite <- app_assoc.
    + cbn [snd log]. by rewrite app_nil_r.
  - destruct (accepted image) eqn:Ha.
    + rewrite (new_events_not_normalized _ w Ha Hn).
      rewrite (log_not_normalized env image w Ha Hn). by rewrite app_nil_r.
    + destruct image; try done.
      * by rewrite new_events_none, analyze_none.
      * by rewrite new_events_object, analyze_object.
Qed.

End Events.

(** ** Answers of the model *)

(** The verdict on an answer, by its stripped length. *)
Lemma answer_verdict env image w response text :
  model_reply env image w = Some (inr response) →
  content response = Some text →
  (analyze_medical_image env image w).1
  = inr (if (len (strip text) <? 100)%nat then incomplete_error else text).
Proof.
  intros Hr Hc. destruct (model_reply_inv _ _ _ _ Hr) as (rgb & Hn & Ha).
  rewrite (analyze_normalized _ _ _ w Hn), Ha, Hc.
  by destruct (len (strip text) <? 100)%nat.
Qed.

(** X1. An answer that is empty or made of white space only is rejected
    as incomplete, however long it is. *)
Theorem blank_answer_is_incomplete env image w response text :
  model_reply env image w = Some (inr response) →
  content response = Some text →
  is_whitespace text = true →
  (analyze_medical_image env image w).1 = inr incomplete_error.
Proof.
  intros Hr Hc Hws. rewrite (answer_verdict _ _ _ _ _ Hr Hc).
  by rewrite (strip_whitespace _ Hws).
Qed.

Lemma blank_answer_is_incomplete_witness :
  model_reply (Mock.env (Mock.says (replicate 150 32)))
              (NdArray Mock.zeros_10x10) Mock.clean
  = Some (Mock.says (replicate 150 32))
  ∧ len (replicate 150 32 : str) = 150%nat
  ∧ (analyze_medical_image (Mock.env (Mock.says (replicate 150 32)))
                           (NdArray Mock.zeros_10x10) Mock.clean).1
    = inr incomplete_error.
Proof.
  split_and!; [vm_compute; reflexivity | reflexivity |].
  apply (blank_answer_is_incomplete
           (Mock.env (Mock.says (replicate 150 32))) (NdArray Mock.zeros_10x10)
           Mock.clean {| content := Some (replicate 150 32) |} (replicate 150 32)).
  - vm_compute; reflexivity.
  - reflexivity.
  - vm_compute; reflexivity.
Defined.

(** X2. White space around an answer does not count towards the
    threshold: the padded answer is rejected exactly when the text inside
    strips to fewer than 100 characters, and is otherwise returned with
    its padding. *)
Theorem padding_does_not_count env image w response a text b :
  model_reply env image w = Some (inr response) →
  content response = Some (a ++ text ++ b) →
  is_whitespace a = true → is_whitespace b = true →
  (analyze_medical_image env image w).1
  = inr (if (len (strip text) <? 100)%nat then incomplete_error
         else a ++ text ++ b).
Proof.
  intros Hr Hc Ha Hb. rewrite (answer_verdict _ _ _ _ _ Hr Hc).
  by rewrite (strip_padded _ _ _ Ha Hb).
Qed.

Lemma padding_does_not_count_witness :
  model_reply (Mock.env (Mock.says (replicate 60 10 ++ replicate 99 120 ++ replicate 60 32)))
              (NdArray Mock.zeros_10x10) Mock.clean
  = Some (Mock.says (replicate 60 10 ++ replicate 99 120 ++ replicate 60 32))
  ∧ (analyze_medical_image
       (Mock.env (Mock.says (replicate 60 10 ++ replicate 99 120 ++ replicate 60 32)))
       (NdArray Mock.zeros_10x10) Mock.clean).1
    = inr incomplete_error.
Proof.
  split; [vm_compute; reflexivity|].
  apply (padding_does_not_count
           (Mock.env (Mock.says (replicate 60 10 ++ replicate 99 120 ++ replicate 60 32)))
           (NdArray Mock.zeros_10x10) Mock.clean
           {| content := Some (replicate 60 10 ++ replicate 99 120 ++ replicate 60 32) |}
           (replicate 60 10) (replicate 99 120) (replicate 60 32)).
  - vm_compute; reflexivity.
  - reflexivity.
  - vm_compute; reflexivity.
  - vm_compute; reflexivity.
Defined.

(** X3. When the response of the model has no content, the handler
    returns the message of the attribute error that [strip] raises on
    None; the one call was made and the file is gone. *)
Theorem missing_content_reported env image w response :
  model_reply env image w = Some (inr response) →
  content response = None →
  (analyze_medical_image env image w).1
  = inr (lit "Error during analysis: 'NoneType' object has no attribute 'strip'")
  ∧ length (external_calls (new_events env image w)) = 1%nat
  ∧ fs (analyze_medical_image env image w).2 !! temp_path = None.
Proof.
  intros Hr Hc. destruct (model_reply_inv _ _ _ _ Hr) as (rgb & Hn & Ha).
  rewrite (calls_normalized _ _ _ w Hn).
  rewrite (analyze_normalized _ _ _ w Hn), Ha, Hc. cbn [fst snd fs].
  split_and!; [done|done|apply lookup_delete_eq].
Qed.

Lemma missing_content_reported_witness :
  model_reply (Mock.env (inr {| content := None |})) (NdArray Mock.zeros_10x10)
              Mock.stale
  = Some (inr {| content := None |})
  ∧ (analyze_medical_image (Mock.env (inr {| content := None |}))
                           (NdArray Mock.zeros_10x10) Mock.stale).1
    = inr (lit "Error during analysis: 'NoneType' object has no attribute 'strip'").
Proof.
  split; [vm_compute; reflexivity|].
  apply (missing_content_reported
           (Mock.env (inr {| content := None |})) (NdArray Mock.zeros_10x10)
           Mock.stale {| content := None |}).
  - vm_compute; reflexivity.
  - reflexivity.
Defined.

(** ** Everything the handler can return *)

(** X4. Whenever the handler returns, the string is not empty, and it is
    the upload prompt (for None), "Invalid image format" (for an object
    of another type), or, for a pixel array or a decoded image, the
    incomplete-answer error, an "Error during analysis: ..." message, or
    a text whose stripped length is at least 100. *)
Theorem returned_string_kinds env image w s :
  (analyze_medical_image env image w).1 = inr s →
  s ≠ []
  ∧ match image with
    | PyNone => s = upload_prompt
    | PyObject _ => s = invalid_format
    | _ => s = incomplete_error
           ∨ (∃ e, s = error_message e)
           ∨ (100 ≤ len (strip s))%nat
    end.
Proof.
  assert (Herr : ∀ e, error_message e ≠ []) by done.
  assert (Hlong : ∀ t : str, (100 ≤ len (strip t))%nat → t ≠ []).
  { intros t Ht ->. cbn in Ht. lia. }
  intros Hs.
  destruct (normalized env image) as [rgb|] eqn:Hn.
  - assert (Ha : accepted image = true).
    { destruct image; try done; by cbv in Hn. }
    assert (Hk : s ≠ []
                 ∧ (s = incomplete_error ∨ (∃ e, s = error_message e)
                    ∨ (100 ≤ len (strip s))%nat)).
    { rewrite (analyze_normalized _ _ _ w Hn) in Hs.
      destruct (agent_run env _ _ _) as [e|response];
        [injection Hs as <-; by eauto 10|].
      destruct (content response) as [text|];
        [|injection Hs as <-; by eauto 10].
      destruct (Nat.ltb_spec (len (strip text)) 100);
        injection Hs as <-; eauto 10. }
    by destruct image.
  - destruct (accepted image) eqn:Ha.
    + destruct (analyze_not_normalized env image w Ha Hn) as (e & disk & _ & Hrun).
      rewrite Hrun in Hs. apply except_clause_returns in Hs as [-> _].
      split; [done|]. destruct image; try done; eauto.
    + destruct image; try done.
      * by injection Hs as <-.
      * by injection Hs as <-.
Qed.

Lemma returned_string_kinds_witness :
  (analyze_medical_image (Mock.env_disk_full (Mock.says Mock.markdown_200))
                         (NdArray Mock.zeros_10x10) Mock.stale).1
  = inr (lit "Error during analysis: [Errno 28] No space left on device")
  ∧ lit "Error during analysis: [Errno 28] No space left on device" ≠ [].
Proof.
  assert (Hs : (analyze_medical_image
                  (Mock.env_disk_full (Mock.says Mock.markdown_200))
                  (NdArray Mock.zeros_10x10) Mock.stale).1
               = inr (lit "Error during analysis: [Errno 28] No space left on device"))
    by (vm_compute; reflexivity).
  split; [exact Hs|].
  exact (proj1 (returned_string_kinds _ _ _ _ Hs)).
Defined.

(** ** Notifications *)

(** Closes a goal whose hypothesis puts an event in a log that holds no
    event of that kind. *)
Ltac not_logged H :=
  repeat (apply elem_of_cons in H as [H|H]; [discriminate H|]);
  by apply elem_of_nil in H.

(** X6. The success notification is shown exactly when the model answered
    with a content whose stripped length is at least 100, that is, exactly
    when the handler returns the content of the answer. *)
Theorem success_shown_iff_answer_accepted env image w :
  (∃ msg, GrSuccess msg ∈ new_events env image w)
  ↔ (∃ response text,
       model_reply env image w = Some (inr response)
       ∧ content response = Some text
       ∧ (100 ≤ len (strip text))%nat
       ∧ (analyze_medical_image env image w).1 = inr text).
Proof.
  split.
  - intros [msg Hin].
    destruct (normalized env image) as [rgb|] eqn:Hn.
    + rewrite (new_events_normalized _ _ _ w Hn) in Hin.
      pose proof (model_reply_normalized env _ _ w Hn) as Hr.
      destruct (agent_run env _ _ _) as [e|[[text|]]] eqn:Ha;
        cbn [after_reply app] in Hin.
      * not_logged Hin.
      * destruct (Nat.ltb_spec (len (strip text)) 100) as [Hl|Hl];
          [not_logged Hin|].
        exists {| content := Some text |}, text. split_and!; try done.
        by apply (long_answer_returned env _ _ _ _ Hr).
      * not_logged Hin.
    + destruct (accepted image) eqn:Hacc.
      * rewrite (new_events_not_normalized _ _ w Hacc Hn) in Hin.
        not_logged Hin.
      * destruct image; try done.
        -- rewrite new_events_none in Hin. not_logged Hin.
        -- rewrite new_events_object in Hin. not_logged Hin.
  - intros (response & text & Hr & Hc & Hl & _).
    destruct (model_reply_inv _ _ _ _ Hr) as (rgb & Hn & Ha).
    rewrite (new_events_normalized _ _ _ w Hn), Ha.
    destruct response as [c]. cbn in Hc. subst c. cbn [after_reply].
    destruct (Nat.ltb_spec (len (strip text)) 100); [lia|].
    eexists. apply elem_of_app. right. by apply list_elem_of_singleton.
Qed.

(** X7. A caught exception shows no notification of its own: the handler
    builds the [gr.Error] object and does not raise it, so after an
    exception the log of the invocation holds at most the progress note
    and the external call, and the message reaches the user only as the
    returned string: whatever the handler then returns is the message
    built from the exception. *)
Theorem caught_exception_not_notified env image w e :
  raised_in_try env image w e →
  (∀ ev, ev ∈ new_events env image w →
         match ev with
         | GrInfo _ | AgentRun _ _ _ => True
         | GrWarning _ | GrSuccess _ => False
         end)
  ∧ (∀ s, (analyze_medical_image env image w).1 = inr s →
          s = error_message e).
Proof.
  intros [w' Ht]. split.
  2:{ intros s Hs. rewrite (raised_handled env _ _ _ _ Ht) in Hs.
      by apply except_clause_returns in Hs as [-> _]. }
  assert (Hacc : accepted image = true) by (by destruct image).
  destruct (normalized env image) as [rgb|] eqn:Hn.
  - rewrite (new_events_normalized _ _ _ w Hn).
    pose proof (try_body_normalized env _ _ w Hn) as Hb. cbn zeta in Hb.
    destruct (agent_run env _ _ _) as [e'|[[text|]]]; cbn [content] in Hb;
      cbn [after_reply].
    + intros ev Hin. rewrite app_nil_r in Hin.
      apply elem_of_cons in Hin as [->|Hin]; [done|].
      apply list_elem_of_singleton in Hin as ->. done.
    + destruct Hb as (s & w'' & Hb). congruence.
    + intros ev Hin. rewrite app_nil_r in Hin.
      apply elem_of_cons in Hin as [->|Hin]; [done|].
      apply list_elem_of_singleton in Hin as ->. done.
  - rewrite (new_events_not_normalized _ _ w Hacc Hn). intros ev Hin.
    by apply elem_of_nil in Hin.
Qed.

Lemma caught_exception_not_notified_witness :
  raised_in_try (Mock.env (inl Mock.quota_exceeded)) (NdArray Mock.zeros_10x10)
                Mock.clean Mock.quota_exceeded
  ∧ (analyze_medical_image (Mock.env (inl Mock.quota_exceeded))
                           (NdArray Mock.zeros_10x10) Mock.clean).1
    = inr (lit "Error during analysis: quota exceeded")
  ∧ lit "Error during analysis: quota exceeded"
    = error_message Mock.quota_exceeded.
Proof.
  assert (Hr : raised_in_try (Mock.env (inl Mock.quota_exceeded))
                 (NdArray Mock.zeros_10x10) Mock.clean Mock.quota_exceeded).
  { unfold raised_in_try. eexists. vm_compute. reflexivity. }
  assert (Hs : (analyze_medical_image (Mock.env (inl Mock.quota_exceeded))
                                      (NdArray Mock.zeros_10x10) Mock.clean).1
               = inr (lit "Error during analysis: quota exceeded"))
    by (vm_compute; reflexivity).
  split; [exact Hr|]. split; [exact Hs|].
  exact (proj2 (caught_exception_not_notified _ _ _ _ Hr) _ Hs).
Defined.

(** ** Sessions at the interface *)

Section Interface.

(** One invocation makes at most one external call. *)
Lemma calls_at_most_one env image w :
  (length (external_calls (new_events env image w)) ≤ 1)%nat.
Proof.
  destruct (normalized env image) as [rgb|] eqn:Hn.
  - by rewrite (calls_normalized _ _ _ w Hn).
  - rewrite (calls_not_normalized _ _ w Hn). apply Nat.le_0_l.
Qed.

(** A click succeeds as an action of the session, whether the handler
    returns or not, and the world after it is the one the handler
    leaves. *)
Lemma click_run env ui w :
  ∃ ui', analyze_button_click env ui w
         = (inr ui', (analyze_medical_image env (image_value ui) w).2).
Proof.
  unfold analyze_button_click. unfold_M.
  destruct (analyze_medical_image env (image_value ui) w) as [[e|s] w'];
    by eexists.
Qed.

Lemma act_run a ui w :
  ∃ ui' evs,
    act a ui w = (inr ui', {| fs := fs (act a ui w).2; log := log w ++ evs |})
    ∧ (length (external_calls evs) ≤ if is_click a then 1 else 0)%nat.
Proof.
  destruct a as [p| |env]; cbn [act is_click].
  - eexists _, []. unfold_M. cbn [snd fs]. rewrite app_nil_r, World_eta.
    split; [reflexivity|apply Nat.le_0_l].
  - eexists _, []. unfold_M. cbn [snd fs]. rewrite app_nil_r, World_eta.
    split; [reflexivity|apply Nat.le_0_l].
  - destruct (click_run env ui w) as (ui' & ->). cbn [snd].
    exists ui', (new_events env (image_value ui) w).
    rewrite <- log_grows, World_eta.
    split; [reflexivity|apply calls_at_most_one].
Qed.

Lemma clicks_cons a actions :
  clicks (a :: actions) = ((if is_click a then 1 else 0) + clicks actions)%nat.
Proof. unfold clicks. rewrite filter_cons. by destruct a. Qed.

Lemma session_run actions ui w :
  ∃ ui' evs,
    session actions ui w
    = (inr ui', {| fs := fs (session actions ui w).2; log := log w ++ evs |})
    ∧ (length (external_calls evs) ≤ clicks actions)%nat.
Proof.
  revert ui w. induction actions as [|a actions IH]; intros ui w.
  - exists ui, []. cbn [session]. unfold_M. cbn [snd fs].
    rewrite app_nil_r, World_eta. split; [reflexivity|apply Nat.le_0_l].
  - destruct (act_run a ui w) as (ui1 & evs1 & Hrun & Hc1).
    cbn [session]. unfold mbind, M_bind. rewrite Hrun.
    set (w1 := {| fs := fs (act a ui w).2; log := log w ++ evs1 |}) in *.
    destruct (IH ui1 w1) as (ui2 & evs2 & Hrun2 & Hc2).
    exists ui2, (evs1 ++ evs2). rewrite Hrun2 at 1. cbn [snd fs].
    split.
    + f_equal. f_equal. subst w1. cbn [log]. by rewrite app_assoc.
    + unfold external_calls in *. rewrite filter_app, length_app.
      rewrite clicks_cons. lia.
Qed.

End Interface.

(** X12. A session makes at most one external call per click: the events
    it adds to the log hold no more calls than the user pressed the
    button, and uploads alone make none. *)
Theorem session_calls_at_most_clicks actions ui w :
  ∃ evs, log (session actions ui w).2 = log w ++ evs
         ∧ (length (external_calls evs) ≤ clicks actions)%nat.
Proof.
  destruct (session_run actions ui w) as (ui' & evs & Hrun & Hc).
  exists evs. split; [|exact Hc]. by rewrite Hrun.
Qed.

(** ** What [strip] keeps *)

Lemma lstrip_split s :
  ∃ a, s = a ++ lstrip s ∧ is_whitespace a = true.
Proof.
  induction s as [|c s (a & Hs & Ha)]; [by exists []|].
  cbn [lstrip]. destruct (isspace c) eqn:Hc.
  - exists (c :: a). cbn [app]. split; [by rewrite <- Hs|].
    unfold is_whitespace in *. cbn [forallb]. by rewrite Hc, Ha.
  - by exists [].
Qed.

Lemma lstrip_head s c t : lstrip s = c :: t → isspace c = false.
Proof.
  induction s as [|d s IH]; [done|]. cbn [lstrip].
  destruct (isspace d) eqn:Hd; [exact IH|]. by intros [= <- _].
Qed.

Lemma rstrip_split s :
  ∃ b, s = rstrip s ++ b ∧ is_whitespace b = true.
Proof.
  destruct (lstrip_split (rev s)) as (a & Hs & Ha).
  exists (rev a). split; [|by rewrite is_whitespace_rev].
  unfold rstrip. rewrite <- rev_app_distr, <- Hs. by rewrite rev_involutive.
Qed.

Lemma rstrip_last s t c : rstrip s = t ++ [c] → isspace c = false.
Proof.
  unfold rstrip. intros H. apply (f_equal (@rev N)) in H.
  rewrite rev_involutive, rev_app_distr in H. cbn [rev app] in H.
  by apply lstrip_head in H.
Qed.

(** X13. [strip] removes white space at both ends and nothing else: the
    string is its stripped text between two runs of white space, and the
    stripped text neither starts nor ends with a white-space character;
    stripping again changes nothing. *)
Theorem strip_is_the_core s :
  (∃ a b, s = a ++ strip s ++ b
          ∧ is_whitespace a = true ∧ is_whitespace b = true)
  ∧ (∀ c t, strip s = c :: t → isspace c = false)
  ∧ (∀ t c, strip s = t ++ [c] → isspace c = false)
  ∧ strip (strip s) = strip s.
Proof.
  destruct (lstrip_split s) as (a & Hs & Ha).
  destruct (rstrip_split (lstrip s)) as (b & Hl & Hb).
  assert (Hsplit : s = a ++ strip s ++ b).
  { unfold strip. by rewrite <- Hl. }
  assert (Hhead : ∀ c t, strip s = c :: t → isspace c = false).
  { intros c t Hc. unfold strip in Hc. rewrite Hc in Hl. cbn [app] in Hl.
    by apply lstrip_head in Hl. }
  assert (Hlast : ∀ t c, strip s = t ++ [c] → isspace c = false).
  { intros t c Hc. by apply rstrip_last in Hc. }
  split_and!; [by exists a, b|exact Hhead|exact Hlast|].
  assert (Hfix : lstrip (strip s) = strip s).
  { destruct (strip s) as [|c t] eqn:Hst; [done|].
    cbn [lstrip]. by rewrite (Hhead c t eq_refl). }
  unfold strip at 1. rewrite Hfix.
  destruct (strip s) as [|c t] eqn:Hst using rev_ind; [done|].
  unfold rstrip. rewrite rev_app_distr. cbn [rev app lstrip].
  rewrite (Hlast _ _ eq_refl). cbn [rev]. by rewrite rev_involutive.
Qed.
